(** * robust_function.c: two goto-based transactional functions

    The C file holds two functions with the same skeleton:

    - [robust_function_get_everything_done_but_not_undone] validates its
      three arguments, runs [do_a], [do_b], [do_c], [do_d] in order, and on
      the first failing step jumps to the cleanup label of the previous
      step; the labels [cleanup_c], [cleanup_b], [cleanup_a] fall through
      one into the next and end in [out];
    - [robust_function_get_everything_done_and_undone] does the same, and
      after the core task also runs [undo_d] and falls into [cleanup_c].

    The validators, the steps and their compensations are external
    functions: the file calls them and does not declare them.  They are
    taken here as a record of functions over an abstract world, and every
    call is logged, with its return value, in a trace.  The functions only
    test their [int]s against 0 and return two constants, so the integers
    are plain [Z] and no arithmetic can wrap. *)

From Stdlib Require Import ZArith List Bool Lia Sorted.
Import ListNotations.
Local Open Scope Z_scope.

(** ** Constants *)

Definition FAILURE : Z := -1.
Definition SUCCESS : Z := 0.

(** ** External functions and the events they leave *)

(** The four fallible steps, in the order the source runs them. *)
Inductive step : Type := A | B | C | D.

(** The three validated parameters. *)
Inductive param : Type := Var1 | Var2 | Var3.

(** A call site of the source: [var_k_is_valid (v)], [do_s ()], [undo_s ()]. *)
Inductive call : Type :=
| Validate (p : param) (v : Z)
| Do (s : step)
| Undo (s : step).

(** What a run leaves behind: the external calls with the value each one
    returned, and a mark where the source has its core-task comment. *)
Inductive event : Type :=
| Called (c : call) (r : Z)
| CoreTask.

Module Ext.

(** The undeclared external functions of the file.  Each one is an
    implicitly declared C function returning [int]; it may read and change
    the world. *)
Record t (W : Type) : Type := Build {
  var_1_is_valid : Z -> W -> Z * W;
  var_2_is_valid : Z -> W -> Z * W;
  var_3_is_valid : Z -> W -> Z * W;
  do_a : W -> Z * W;
  do_b : W -> Z * W;
  do_c : W -> Z * W;
  do_d : W -> Z * W;
  undo_a : W -> Z * W;
  undo_b : W -> Z * W;
  undo_c : W -> Z * W;
  undo_d : W -> Z * W
}.

Arguments Build {W}.
Arguments var_1_is_valid {W}.
Arguments var_2_is_valid {W}.
Arguments var_3_is_valid {W}.
Arguments do_a {W}.
Arguments do_b {W}.
Arguments do_c {W}.
Arguments do_d {W}.
Arguments undo_a {W}.
Arguments undo_b {W}.
Arguments undo_c {W}.
Arguments undo_d {W}.

(** The function behind a call site. *)
Definition dispatch {W} (E : t W) (c : call) : W -> Z * W :=
  match c with
  | Validate Var1 v => var_1_is_valid E v
  | Validate Var2 v => var_2_is_valid E v
  | Validate Var3 v => var_3_is_valid E v
  | Do A => do_a E
  | Do B => do_b E
  | Do C => do_c E
  | Do D => do_d E
  | Undo A => undo_a E
  | Undo B => undo_b E
  | Undo C => undo_c E
  | Undo D => undo_d E
  end.

End Ext.

(** ** A state-and-trace monad for the function bodies *)

(** A computation takes the world and gives its value, the new world and
    the events of its own calls, oldest first. *)
Definition M (W A : Type) : Type := W -> A * W * list event.

Definition ret {W A} (a : A) : M W A := fun w => (a, w, []).

Definition bind {W A B} (m : M W A) (k : A -> M W B) : M W B :=
  fun w =>
    let '(a, w1, t1) := m w in
    let '(b, w2, t2) := k a w1 in
    (b, w2, t1 ++ t2).

Notation "x <- m ;; k" := (bind m (fun x => k))
  (at level 61, m at next level, right associativity).
Notation "m ;; k" := (bind m (fun _ => k))
  (at level 61, right associativity).

(** One external call: run the function on the world, log call and result. *)
Definition invoke {W} (E : Ext.t W) (c : call) : M W Z :=
  fun w => let (r, w') := Ext.dispatch E c w in (r, w', [Called c r]).

(** The place of the core task (a comment in the source): it calls nothing
    and only marks the trace. *)
Definition core_task {W} : M W unit := fun w => (tt, w, [CoreTask]).

(** C's [!e] on an [int]: true exactly when [e] is 0. *)
Definition c_not {W} (m : M W Z) : M W bool :=
  r <- m ;; ret (r =? 0).

(** C's [e1 || e2]: [e2] is evaluated only when [e1] is false. *)
Definition c_or {W} (m1 m2 : M W bool) : M W bool :=
  b <- m1 ;; if b then ret true else m2.

Definition outcome {W A} (x : A * W * list event) : A := fst (fst x).
Definition final {W A} (x : A * W * list event) : W := snd (fst x).
Definition trace {W A} (x : A * W * list event) : list event := snd x.

(** ** The two functions *)

Section Functions.

Context {W : Type} (E : Ext.t W).

Definition var_1_is_valid (v : Z) : M W Z := invoke E (Validate Var1 v).
Definition var_2_is_valid (v : Z) : M W Z := invoke E (Validate Var2 v).
Definition var_3_is_valid (v : Z) : M W Z := invoke E (Validate Var3 v).
Definition do_a : M W Z := invoke E (Do A).
Definition do_b : M W Z := invoke E (Do B).
Definition do_c : M W Z := invoke E (Do C).
Definition do_d : M W Z := invoke E (Do D).
Definition undo_a : M W Z := invoke E (Undo A).
Definition undo_b : M W Z := invoke E (Undo B).
Definition undo_c : M W Z := invoke E (Undo C).
Definition undo_d : M W Z := invoke E (Undo D).

(** The first function.  Each label is the code from that label to the end
    of the function, so that falling through a label is calling the next
    one; [goto l] is a tail call of [l] with the current [result]. *)
Definition robust_function_get_everything_done_but_not_undone
    (var_1 var_2 var_3 : Z) : M W Z :=
  let out (result : Z) : M W Z := ret result in
  let cleanup_a (result : Z) : M W Z := undo_a ;; out result in
  let cleanup_b (result : Z) : M W Z := undo_b ;; cleanup_a result in
  let cleanup_c (result : Z) : M W Z := undo_c ;; cleanup_b result in
  let result := FAILURE in
  invalid <- c_or (c_not (var_1_is_valid var_1))
               (c_or (c_not (var_2_is_valid var_2))
                     (c_not (var_3_is_valid var_3))) ;;
  if invalid then out result else
  failed <- c_not do_a ;;
  if failed then out result else
  failed <- c_not do_b ;;
  if failed then cleanup_a result else
  failed <- c_not do_c ;;
  if failed then cleanup_b result else
  failed <- c_not do_d ;;
  if failed then cleanup_c result else
  core_task ;;
  let result := SUCCESS in
  out result.

(** The second function: the same head; after the core task it sets
    [result], calls [undo_d] and falls into [cleanup_c]. *)
Definition robust_function_get_everything_done_and_undone
    (var_1 var_2 var_3 : Z) : M W Z :=
  let out (result : Z) : M W Z := ret result in
  let cleanup_a (result : Z) : M W Z := undo_a ;; out result in
  let cleanup_b (result : Z) : M W Z := undo_b ;; cleanup_a result in
  let cleanup_c (result : Z) : M W Z := undo_c ;; cleanup_b result in
  let result := FAILURE in
  invalid <- c_or (c_not (var_1_is_valid var_1))
               (c_or (c_not (var_2_is_valid var_2))
                     (c_not (var_3_is_valid var_3))) ;;
  if invalid then out result else
  failed <- c_not do_a ;;
  if failed then out result else
  failed <- c_not do_b ;;
  if failed then cleanup_a result else
  failed <- c_not do_c ;;
  if failed then cleanup_b result else
  failed <- c_not do_d ;;
  if failed then cleanup_c result else
  core_task ;;
  let result := SUCCESS in
  undo_d ;;
  cleanup_c result.

(** All three validators answered in call order, without the short cut of
    [||]: some argument is invalid. *)
Definition any_invalid (var_1 var_2 var_3 : Z) (w : W) : bool :=
  outcome ((r1 <- var_1_is_valid var_1 ;;
            r2 <- var_2_is_valid var_2 ;;
            r3 <- var_3_is_valid var_3 ;;
            ret ((r1 =? 0) || (r2 =? 0) || (r3 =? 0))%bool) w).

End Functions.

(** The two functions under the names the specification gives their
    policies. *)
Inductive mode : Type := Factory | Scoped.

Definition robust_function {W} (m : mode) (E : Ext.t W)
    (var_1 var_2 var_3 : Z) : M W Z :=
  match m with
  | Factory =>
      robust_function_get_everything_done_but_not_undone E var_1 var_2 var_3
  | Scoped =>
      robust_function_get_everything_done_and_undone E var_1 var_2 var_3
  end.

(** What a run of either function returns, and the trace it leaves. *)
Definition run_outcome {W} (m : mode) (E : Ext.t W) (v1 v2 v3 : Z) (w : W) : Z :=
  outcome (robust_function m E v1 v2 v3 w).

Definition run_trace {W} (m : mode) (E : Ext.t W) (v1 v2 v3 : Z) (w : W)
    : list event :=
  trace (robust_function m E v1 v2 v3 w).

(** ** The control flow, statement by statement

    The same two bodies as a machine that executes one statement at a
    time.  A control state is a statement of the source: the validation
    [if], the [if] around each [do_s], the core task with the assignment
    after it, each [undo_s] call, and [return result] at [out]. *)

Inductive pc : Type :=
| Validating
| Attempting (s : step)
| CoreExecuting
| Unwinding (s : step)
| Out.

Inductive next : Type :=
| Goto (p : pc) (result : Z)
| Return (result : Z)
| NoStatement.

Section Machine.

Context {W : Type} (m : mode) (E : Ext.t W) (var_1 var_2 var_3 : Z).

Definition statement (p : pc) (result : Z) : M W next :=
  match p with
  | Validating =>
      invalid <- c_or (c_not (var_1_is_valid E var_1))
                   (c_or (c_not (var_2_is_valid E var_2))
                         (c_not (var_3_is_valid E var_3))) ;;
      ret (Goto (if invalid then Out else Attempting A) result)
  | Attempting A =>
      failed <- c_not (do_a E) ;;
      ret (Goto (if failed then Out else Attempting B) result)
  | Attempting B =>
      failed <- c_not (do_b E) ;;
      ret (Goto (if failed then Unwinding A else Attempting C) result)
  | Attempting C =>
      failed <- c_not (do_c E) ;;
      ret (Goto (if failed then Unwinding B else Attempting D) result)
  | Attempting D =>
      failed <- c_not (do_d E) ;;
      ret (Goto (if failed then Unwinding C else CoreExecuting) result)
  | CoreExecuting =>
      core_task ;;
      ret (Goto (match m with Factory => Out | Scoped => Unwinding D end)
                SUCCESS)
  | Unwinding D =>
      match m with
      | Factory => ret NoStatement
      | Scoped => undo_d E ;; ret (Goto (Unwinding C) result)
      end
  | Unwinding C => undo_c E ;; ret (Goto (Unwinding B) result)
  | Unwinding B => undo_b E ;; ret (Goto (Unwinding A) result)
  | Unwinding A => undo_a E ;; ret (Goto Out result)
  | Out => ret (Return result)
  end.

(** Run at most [fuel] statements from [p]; the value is what was returned,
    if anything, and the control states entered, in order. *)
Fixpoint exec (fuel : nat) (p : pc) (result : Z) : M W (option Z * list pc) :=
  match fuel with
  | O => ret (None, [])
  | S fuel' =>
      n <- statement p result ;;
      match n with
      | Goto p' result' =>
          rest <- exec fuel' p' result' ;;
          ret (fst rest, p :: snd rest)
      | Return r => ret (Some r, [p])
      | NoStatement => ret (None, [p])
      end
  end.

End Machine.

(** Eleven statements are enough for the longest path. *)
Definition machine_run {W} (m : mode) (E : Ext.t W) (v1 v2 v3 : Z) (w : W)
    : (option Z * list pc) * W * list event :=
  exec m E v1 v2 v3 11 Validating FAILURE w.

(** The control states a run goes through, in order. *)
Definition visited {W} (m : mode) (E : Ext.t W) (v1 v2 v3 : Z) (w : W)
    : list pc :=
  snd (outcome (machine_run m E v1 v2 v3 w)).

(** Position of a control state in the text of the function. *)
Definition rank (p : pc) : nat :=
  match p with
  | Validating => 0
  | Attempting A => 1
  | Attempting B => 2
  | Attempting C => 3
  | Attempting D => 4
  | CoreExecuting => 5
  | Unwinding D => 6
  | Unwinding C => 7
  | Unwinding B => 8
  | Unwinding A => 9
  | Out => 10
  end%nat.

(** ** Reading a trace *)

(** Position of a step in the sequence [do_a], [do_b], [do_c], [do_d]. *)
Definition idx (s : step) : nat :=
  match s with A => 0 | B => 1 | C => 2 | D => 3 end%nat.

Definition steps : list step := [A; B; C; D].

Definition step_eqb (s s' : step) : bool := Nat.eqb (idx s) (idx s').

Definition param_eqb (p p' : param) : bool :=
  match p, p' with
  | Var1, Var1 | Var2, Var2 | Var3, Var3 => true
  | _, _ => false
  end.

Definition is_undo (c : call) : bool :=
  match c with Undo _ => true | _ => false end.

(** The external calls of a trace, in order, without their results. *)
Definition calls (t : list event) : list call :=
  flat_map (fun e => match e with Called c _ => [c] | CoreTask => [] end) t.

(** The steps whose forward action was called, in call order. *)
Definition dos (t : list event) : list step :=
  flat_map (fun e => match e with Called (Do s) _ => [s] | _ => [] end) t.

(** The steps whose compensation was called, in call order. *)
Definition undos (t : list event) : list step :=
  flat_map (fun e => match e with Called (Undo s) _ => [s] | _ => [] end) t.

(** [do_s] was called and returned non-zero: the branch of [if (!do_s())]
    is not taken. *)
Definition succeeded (s : step) (t : list event) : bool :=
  existsb (fun e => match e with
                    | Called (Do s') r => step_eqb s s' && negb (r =? 0)
                    | _ => false
                    end) t.

(** [do_s] was called and returned 0. *)
Definition failed (s : step) (t : list event) : bool :=
  existsb (fun e => match e with
                    | Called (Do s') r => step_eqb s s' && (r =? 0)
                    | _ => false
                    end) t.

Definition attempted (s : step) (t : list event) : bool :=
  existsb (step_eqb s) (dos t).

Definition compensated (s : step) (t : list event) : bool :=
  existsb (step_eqb s) (undos t).

(** [var_k_is_valid] was called and returned non-zero. *)
Definition accepted (p : param) (t : list event) : bool :=
  existsb (fun e => match e with
                    | Called (Validate p' _) r =>
                        param_eqb p p' && negb (r =? 0)
                    | _ => false
                    end) t.

(** [var_k_is_valid] was called and returned 0. *)
Definition rejected (p : param) (t : list event) : bool :=
  existsb (fun e => match e with
                    | Called (Validate p' _) r => param_eqb p p' && (r =? 0)
                    | _ => false
                    end) t.

Definition validation_passed (t : list event) : bool :=
  accepted Var1 t && accepted Var2 t && accepted Var3 t.

Definition validation_failed (t : list event) : bool :=
  rejected Var1 t || rejected Var2 t || rejected Var3 t.

Definition core_ran (t : list event) : bool :=
  existsb (fun e => match e with CoreTask => true | _ => false end) t.

(** Some compensation was called and returned 0, the value that means
    failure for the forward steps. *)
Definition undo_failed (t : list event) : bool :=
  existsb (fun e => match e with
                    | Called (Undo _) r => r =? 0
                    | _ => false
                    end) t.

(** The run took a failing path: an argument was rejected or a step
    failed. *)
Definition failing (t : list event) : bool :=
  validation_failed t || existsb (fun s => failed s t) steps.

(** The run went through: every argument accepted, every step succeeded,
    the core task reached. *)
Definition completed (t : list event) : bool :=
  validation_passed t && forallb (fun s => succeeded s t) steps && core_ran t.

(** The effect of step [s] is live after [t]: its forward action succeeded
    and its compensation has not been called. *)
Definition live (t : list event) (s : step) : bool :=
  succeeded s t && negb (compensated s t).

(** A set of steps, given by its membership test, is the first [k] steps. *)
Definition is_prefix_of_steps (f : step -> bool) (k : nat) : Prop :=
  forall s, f s = (idx s <? k)%nat.

Definition step_eq_dec (s s' : step) : {s = s'} + {s <> s'}.
Proof. decide equality. Defined.

(** Two sets of external functions with the same validators and the same
    forward steps; their compensations may differ in every way. *)
Definition same_forward {W} (E1 E2 : Ext.t W) : Prop :=
  forall c w, is_undo c = false -> Ext.dispatch E1 c w = Ext.dispatch E2 c w.

(** The requirement of the specification on a failing compensation, read
    on a run: when some compensation returned failure, what the function
    returns is neither of the two ordinary outcomes. *)
Definition compensation_failure_propagates {W} (m : mode) (E : Ext.t W)
    (var_1 var_2 var_3 : Z) (w : W) : Prop :=
  undo_failed (run_trace m E var_1 var_2 var_3 w) = true ->
  run_outcome m E var_1 var_2 var_3 w <> FAILURE /\
  run_outcome m E var_1 var_2 var_3 w <> SUCCESS.

(** ** The eight paths through either function *)

Definition validations (v1 v2 v3 r1 r2 r3 : Z) : list event :=
  [Called (Validate Var1 v1) r1; Called (Validate Var2 v2) r2;
   Called (Validate Var3 v3) r3].

(** What follows the core task: nothing in the first function, the full
    unwind in the second. *)
Definition after_core (m : mode) (ud uc ub ua : Z) : list event :=
  match m with
  | Factory => []
  | Scoped => [Called (Undo D) ud; Called (Undo C) uc;
               Called (Undo B) ub; Called (Undo A) ua]
  end.

Inductive path (m : mode) (v1 v2 v3 : Z) : Z -> list event -> Prop :=
| path_reject_1 :
    path m v1 v2 v3 FAILURE [Called (Validate Var1 v1) 0]
| path_reject_2 r1 :
    r1 <> 0 ->
    path m v1 v2 v3 FAILURE
         [Called (Validate Var1 v1) r1; Called (Validate Var2 v2) 0]
| path_reject_3 r1 r2 :
    r1 <> 0 -> r2 <> 0 ->
    path m v1 v2 v3 FAILURE (validations v1 v2 v3 r1 r2 0)
| path_fail_a r1 r2 r3 :
    r1 <> 0 -> r2 <> 0 -> r3 <> 0 ->
    path m v1 v2 v3 FAILURE
         (validations v1 v2 v3 r1 r2 r3 ++ [Called (Do A) 0])
| path_fail_b r1 r2 r3 ra ua :
    r1 <> 0 -> r2 <> 0 -> r3 <> 0 -> ra <> 0 ->
    path m v1 v2 v3 FAILURE
         (validations v1 v2 v3 r1 r2 r3 ++
          [Called (Do A) ra; Called (Do B) 0; Called (Undo A) ua])
| path_fail_c r1 r2 r3 ra rb ub ua :
    r1 <> 0 -> r2 <> 0 -> r3 <> 0 -> ra <> 0 -> rb <> 0 ->
    path m v1 v2 v3 FAILURE
         (validations v1 v2 v3 r1 r2 r3 ++
          [Called (Do A) ra; Called (Do B) rb; Called (Do C) 0;
           Called (Undo B) ub; Called (Undo A) ua])
| path_fail_d r1 r2 r3 ra rb rc uc ub ua :
    r1 <> 0 -> r2 <> 0 -> r3 <> 0 -> ra <> 0 -> rb <> 0 -> rc <> 0 ->
    path m v1 v2 v3 FAILURE
         (validations v1 v2 v3 r1 r2 r3 ++
          [Called (Do A) ra; Called (Do B) rb; Called (Do C) rc;
           Called (Do D) 0;
           Called (Undo C) uc; Called (Undo B) ub; Called (Undo A) ua])
| path_complete r1 r2 r3 ra rb rc rd ud uc ub ua :
    r1 <> 0 -> r2 <> 0 -> r3 <> 0 ->
    ra <> 0 -> rb <> 0 -> rc <> 0 -> rd <> 0 ->
    path m v1 v2 v3 SUCCESS
         (validations v1 v2 v3 r1 r2 r3 ++
          [Called (Do A) ra; Called (Do B) rb; Called (Do C) rc;
           Called (Do D) rd; CoreTask] ++ after_core m ud uc ub ua).

(** ** A scripted world for concrete runs

    The world counts the calls made so far and each external function
    answers from a fixed table, so that eleven integers decide a run. *)
Module Script.

Definition tick (r : Z) : nat -> Z * nat := fun n => (r, S n).

Definition env (v1 v2 v3 a b c d ua ub uc ud : Z) : Ext.t nat :=
  Ext.Build (fun _ => tick v1) (fun _ => tick v2) (fun _ => tick v3)
            (tick a) (tick b) (tick c) (tick d)
            (tick ua) (tick ub) (tick uc) (tick ud).

(** Every validator accepts, every step succeeds, every undo returns 1. *)
Definition all_ok : Ext.t nat := env 1 1 1 1 1 1 1 1 1 1 1.

(** As [all_ok], with every undo returning 0. *)
Definition undos_fail : Ext.t nat := env 1 1 1 1 1 1 1 0 0 0 0.

(** As [all_ok], with [do_d] failing. *)
Definition d_fails : Ext.t nat := env 1 1 1 1 1 1 0 1 1 1 1.

(** As [all_ok], with [do_c] failing and [undo_b] returning 0. *)
Definition c_fails_undo_b_fails : Ext.t nat := env 1 1 1 1 1 0 1 1 0 1 1.

(** As [all_ok], with the second argument rejected. *)
Definition var_2_invalid : Ext.t nat := env 1 0 1 1 1 1 1 1 1 1 1.

End Script.

(** ** Further readers of a trace *)

(** The validator calls of a trace, in order, with their arguments. *)
Definition validation_calls (t : list event) : list call :=
  flat_map (fun e => match e with
                     | Called (Validate p v) _ => [Validate p v]
                     | _ => []
                     end) t.

(** [var_k_is_valid] was called, whatever it returned. *)
Definition checked (p : param) (t : list event) : bool :=
  existsb (fun e => match e with
                    | Called (Validate p' _) _ => param_eqb p p'
                    | _ => false
                    end) t.

(** The four parts of either function body, in the order of its text: the
    validation [if], the [if]s around the steps, the core task, the undo
    calls. *)
Definition phase (e : event) : nat :=
  match e with
  | Called (Validate _ _) _ => 0
  | Called (Do _) _ => 1
  | CoreTask => 2
  | Called (Undo _) _ => 3
  end%nat.

(** ** What the external functions may be assumed to do

    The source asks of its steps that a failed one has not happened and
    that [undo_s] takes back what [do_s] did.  On the world: *)

(** A validator only inspects its argument. *)
Definition validators_pure {W} (E : Ext.t W) : Prop :=
  forall p v w, snd (Ext.dispatch E (Validate p v) w) = w.

(** A step that returns 0 has left the world as it was. *)
Definition failure_has_no_effect {W} (E : Ext.t W) : Prop :=
  forall s w,
    fst (Ext.dispatch E (Do s) w) = 0 -> snd (Ext.dispatch E (Do s) w) = w.

(** Called on the world a successful [do_s] has left, [undo_s] gives back
    the world [do_s] started from. *)
Definition undo_reverses_do {W} (E : Ext.t W) : Prop :=
  forall s w,
    fst (Ext.dispatch E (Do s) w) <> 0 ->
    snd (Ext.dispatch E (Undo s) (snd (Ext.dispatch E (Do s) w))) = w.

(** ** A world of stacked effects

    The world is the stack of the steps whose effect is in place: a
    successful step pushes its name, a compensation pops the top, a
    validator or a failing step leaves the stack alone. *)
Module Stack.

Definition accept (v : Z) : list step -> Z * list step := fun w => (1, w).
Definition push (s : step) : list step -> Z * list step :=
  fun w => (1, s :: w).
Definition refuse : list step -> Z * list step := fun w => (0, w).
Definition pop : list step -> Z * list step := fun w => (1, tl w).

(** Every step succeeds. *)
Definition env_ok : Ext.t (list step) :=
  Ext.Build accept accept accept (push A) (push B) (push C) (push D)
            pop pop pop pop.

(** [do_d] fails. *)
Definition env_d_fails : Ext.t (list step) :=
  Ext.Build accept accept accept (push A) (push B) (push C) refuse
            pop pop pop pop.

End Stack.

(** Use the three assumptions on every call met on the way and identify
    the worlds they make equal. *)
Ltac settle_worlds E VP FN UR :=
  repeat match goal with
         | H : Ext.dispatch E (Validate ?p ?v) ?w0 = (_, ?w1) |- _ =>
             let X := fresh in
             pose proof (VP p v w0) as X; rewrite H in X; cbn [fst snd] in X;
             clear H; try subst w1
         | H : Ext.dispatch E (Do ?s) ?w0 = (0, ?w1) |- _ =>
             let X := fresh in
             pose proof (FN s w0) as X; rewrite H in X; cbn [fst snd] in X;
             specialize (X eq_refl); clear H; try subst w1
         | Hd : Ext.dispatch E (Do ?s) ?w0 = (?r, ?w1),
           Hu : Ext.dispatch E (Undo ?s) ?w1 = (_, ?w2),
           N : ?r <> 0 |- _ =>
             let X := fresh in
             pose proof (UR s w0) as X; rewrite Hd in X; cbn [fst snd] in X;
             specialize (X N); rewrite Hu in X; cbn [fst snd] in X;
             clear Hu Hd; try subst w2
         end.

(** ** Proof tools *)

(** Name the result of the next external call of [E] and, where the code
    tests it, split on its being 0. *)
Ltac next_call E :=
  match goal with
  | |- context [Ext.dispatch E ?c ?w] =>
      let r := fresh "r" in
      let w' := fresh "w" in
      destruct (Ext.dispatch E c w) as [r w'] eqn:?;
      cbv beta iota;
      try match goal with
          | |- context [r =? 0] => destruct (Z.eqb_spec r 0); [subst r|]
          end;
      cbv beta iota
  end.

Ltac unfold_run :=
  unfold robust_function,
    robust_function_get_everything_done_but_not_undone,
    robust_function_get_everything_done_and_undone, any_invalid,
    var_1_is_valid, var_2_is_valid, var_3_is_valid,
    do_a, do_b, do_c, do_d, undo_a, undo_b, undo_c, undo_d,
    core_task, invoke, c_not, c_or, bind, ret;
  cbv beta iota.

(** Turn every [r <> 0] of the context into an equation on [r =? 0]. *)
Ltac nonzero_hyps :=
  repeat match goal with
         | H : ?r <> 0 |- _ => apply Z.eqb_neq in H
         end.

Ltac eval_readers :=
  unfold failing, completed, validation_passed, validation_failed, live,
    attempted, compensated, succeeded, failed, accepted, rejected, core_ran,
    undo_failed, dos, undos, calls, steps, validations, after_core,
    step_eqb, param_eqb in *;
  cbn [existsb forallb flat_map app idx Nat.eqb andb orb negb rev firstn
       skipn nth_error] in *;
  repeat match goal with
         | H : (?r =? 0) = false |- context [?r =? 0] => rewrite H
         | H : (?r =? 0) = false, H' : context [?r =? 0] |- _ =>
             lazymatch H' with H => fail | _ => rewrite H in H' end
         end;
  change (0 =? 0) with true in *;
  cbn [existsb forallb flat_map app idx Nat.eqb andb orb negb rev firstn
       skipn nth_error] in *.

(** Split a fact about a path on the eight paths and evaluate. *)
Ltac on_paths P :=
  destruct P;
  repeat match goal with m : mode |- _ => destruct m end;
  nonzero_hyps; eval_readers.

(** Choose the size of a prefix of [steps] and check it step by step. *)
Ltac prefix_size :=
  unfold is_prefix_of_steps;
  first [ exists 0%nat; intros []; reflexivity
        | exists 1%nat; intros []; reflexivity
        | exists 2%nat; intros []; reflexivity
        | exists 3%nat; intros []; reflexivity
        | exists 4%nat; intros []; reflexivity ].

(** Unfold the machine up to its next external call. *)
Ltac machine_unfold :=
  repeat progress (cbn [exec statement Nat.add]; unfold_run).

Ltac machine_step E := machine_unfold; next_call E.

(** ** Concrete runs *)

Example factory_all_ok :
  robust_function Factory Script.all_ok 7 8 9 0%nat =
  (SUCCESS, 7%nat,
   [Called (Validate Var1 7) 1; Called (Validate Var2 8) 1;
    Called (Validate Var3 9) 1; Called (Do A) 1; Called (Do B) 1;
    Called (Do C) 1; Called (Do D) 1; CoreTask]).
Proof. reflexivity. Qed.

Example scoped_all_ok :
  robust_function Scoped Script.all_ok 7 8 9 0%nat =
  (SUCCESS, 11%nat,
   [Called (Validate Var1 7) 1; Called (Validate Var2 8) 1;
    Called (Validate Var3 9) 1; Called (Do A) 1; Called (Do B) 1;
    Called (Do C) 1; Called (Do D) 1; CoreTask;
    Called (Undo D) 1; Called (Undo C) 1; Called (Undo B) 1;
    Called (Undo A) 1]).
Proof. reflexivity. Qed.

Example factory_d_fails :
  robust_function Factory Script.d_fails 7 8 9 0%nat =
  (FAILURE, 10%nat,
   [Called (Validate Var1 7) 1; Called (Validate Var2 8) 1;
    Called (Validate Var3 9) 1; Called (Do A) 1; Called (Do B) 1;
    Called (Do C) 1; Called (Do D) 0;
    Called (Undo C) 1; Called (Undo B) 1; Called (Undo A) 1]).
Proof. reflexivity. Qed.

Example scoped_var_2_invalid :
  robust_function Scoped Script.var_2_invalid 7 8 9 0%nat =
  (FAILURE, 2%nat,
   [Called (Validate Var1 7) 1; Called (Validate Var2 8) 0]).
Proof. reflexivity. Qed.

Example machine_scoped_all_ok :
  outcome (exec Scoped Script.all_ok 7 8 9 11 Validating FAILURE 0%nat) =
  (Some SUCCESS,
   [Validating; Attempting A; Attempting B; Attempting C; Attempting D;
    CoreExecuting; Unwinding D; Unwinding C; Unwinding B; Unwinding A; Out]).
Proof. reflexivity. Qed.

Example machine_factory_d_fails :
  outcome (exec Factory Script.d_fails 7 8 9 11 Validating FAILURE 0%nat) =
  (Some FAILURE,
   [Validating; Attempting A; Attempting B; Attempting C; Attempting D;
    Unwinding C; Unwinding B; Unwinding A; Out]).
Proof. reflexivity. Qed.

(** ** Every run follows one of the eight paths *)

Lemma run_path {W} (m : mode) (E : Ext.t W) (v1 v2 v3 : Z) (w : W) :
  path m v1 v2 v3 (run_outcome m E v1 v2 v3 w) (run_trace m E v1 v2 v3 w).
Proof.
  unfold run_outcome, run_trace; destruct m; unfold_run; repeat next_call E;
    unfold outcome, trace; cbn [fst snd app];
    try (econstructor; eassumption).
  - apply (path_complete Factory) with (ud := 0) (uc := 0) (ub := 0) (ua := 0);
      assumption.
  - match goal with
    | |- path _ _ _ _ _ [_; _; _; _; _; _; _; _; Called _ ?d; Called _ ?c;
                         Called _ ?b; Called _ ?a] =>
        apply (path_complete Scoped) with (ud := d) (uc := c) (ub := b) (ua := a);
        assumption
    end.
Qed.

(** The outcome of a path is one of the two constants. *)
Lemma path_outcome m v1 v2 v3 r t :
  path m v1 v2 v3 r t -> r = SUCCESS \/ r = FAILURE.
Proof. destruct 1; auto. Qed.

(** On a path, being rejected and not having passed are the same. *)
Lemma path_validation m v1 v2 v3 r t :
  path m v1 v2 v3 r t -> validation_failed t = negb (validation_passed t).
Proof. intros P. on_paths P; reflexivity. Qed.

(** A path is failing or completed, and never both. *)
Lemma path_failing_or_completed m v1 v2 v3 r t :
  path m v1 v2 v3 r t -> failing t = negb (completed t).
Proof. intros P. on_paths P; reflexivity. Qed.

(** The unwind after a failed step covers the steps before it, last
    first. *)
Lemma path_undos_after_failure m v1 v2 v3 r t i :
  path m v1 v2 v3 r t -> failed i t = true ->
  undos t = rev (firstn (idx i) steps).
Proof.
  intros P F. destruct i; on_paths P; try discriminate; reflexivity.
Qed.

(** Only the complete path returns [SUCCESS]. *)
Lemma path_success_iff m v1 v2 v3 r t :
  path m v1 v2 v3 r t ->
  r = SUCCESS <->
  validation_passed t = true /\ (forall s, succeeded s t = true) /\
  core_ran t = true.
Proof.
  intros P. split.
  - intros S.
    destruct P; try discriminate S;
      (split; [|split; [intros []|]]); destruct m; nonzero_hyps; eval_readers;
      reflexivity.
  - intros (V & S & K).
    pose proof (S A) as SA. pose proof (S B) as SB.
    pose proof (S C) as SC. pose proof (S D) as SD. clear S.
    on_paths P; try discriminate; reflexivity.
Qed.

(** A rejecting input, read on the validators, is a rejecting run. *)
Lemma any_invalid_spec {W} (m : mode) (E : Ext.t W) (v1 v2 v3 : Z) (w : W) :
  any_invalid E v1 v2 v3 w = validation_failed (run_trace m E v1 v2 v3 w).
Proof.
  unfold run_trace; destruct m; unfold_run; repeat next_call E;
    unfold outcome, trace; cbn [fst snd app]; nonzero_hyps; eval_readers;
    try reflexivity.
Qed.

(** ** Compensation after a failed step *)

(** C1. In a run where validation passed, the steps before step [i]
    succeeded and step [i] failed, the compensations called are exactly
    those of the steps before [i], from the last one down to [undo_a], each
    once; neither the compensation of [i] nor that of a later step is
    called. *)
Theorem reverse_order_compensation {W} (m : mode) (E : Ext.t W)
    (v1 v2 v3 : Z) (w : W) (i : step) :
  validation_passed (run_trace m E v1 v2 v3 w) = true ->
  (forall j, (idx j < idx i)%nat ->
             succeeded j (run_trace m E v1 v2 v3 w) = true) ->
  failed i (run_trace m E v1 v2 v3 w) = true ->
  undos (run_trace m E v1 v2 v3 w) = rev (firstn (idx i) steps) /\
  (forall j, (idx j < idx i)%nat ->
             count_occ step_eq_dec (undos (run_trace m E v1 v2 v3 w)) j = 1%nat) /\
  (forall j, (idx i <= idx j)%nat ->
             compensated j (run_trace m E v1 v2 v3 w) = false).
Proof.
  intros _ _ F.
  pose proof (path_undos_after_failure _ _ _ _ _ _ _ (run_path m E v1 v2 v3 w) F)
    as U.
  unfold compensated. rewrite U. clear F U.
  split; [reflexivity|].
  split; intros j L; destruct i, j; cbn in L |- *; solve [reflexivity | lia].
Qed.

Lemma reverse_order_compensation_witness :
  undos (run_trace Factory Script.d_fails 7 8 9 0%nat) = [C; B; A] /\
  compensated D (run_trace Factory Script.d_fails 7 8 9 0%nat) = false.
Proof.
  destruct (reverse_order_compensation Factory Script.d_fails 7 8 9 0%nat D)
    as (U & _ & N).
  - reflexivity.
  - intros [] L; solve [reflexivity | cbn in L; lia].
  - reflexivity.
  - split; [exact U | apply N; cbn; lia].
Defined.

(** ** The outcome *)

(** C2. The value returned is [SUCCESS] exactly when the three validations
    passed, each of [do_a] .. [do_d] succeeded and the core task was
    reached; in every other run it is [FAILURE]. *)
Theorem outcome_success_iff {W} (m : mode) (E : Ext.t W)
    (v1 v2 v3 : Z) (w : W) :
  (run_outcome m E v1 v2 v3 w = SUCCESS <->
   validation_passed (run_trace m E v1 v2 v3 w) = true /\
   (forall s, succeeded s (run_trace m E v1 v2 v3 w) = true) /\
   core_ran (run_trace m E v1 v2 v3 w) = true) /\
  (run_outcome m E v1 v2 v3 w <> SUCCESS ->
   run_outcome m E v1 v2 v3 w = FAILURE).
Proof.
  pose proof (run_path m E v1 v2 v3 w) as P.
  split.
  - exact (path_success_iff _ _ _ _ _ _ P).
  - intros N. destruct (path_outcome _ _ _ _ _ _ P); [contradiction | assumption].
Qed.

(** C3. When validation passes, the four steps succeed and the core task
    is reached, the first function returns [SUCCESS] without calling any
    compensation, so that the four effects stay live; the second returns
    [SUCCESS] after calling [undo_d], [undo_c], [undo_b], [undo_a] in that
    order, each once, so that no effect stays live. *)
Theorem mode_divergence_on_success {W} (m : mode) (E : Ext.t W)
    (v1 v2 v3 : Z) (w : W) :
  validation_passed (run_trace m E v1 v2 v3 w) = true ->
  (forall s, succeeded s (run_trace m E v1 v2 v3 w) = true) ->
  core_ran (run_trace m E v1 v2 v3 w) = true ->
  run_outcome m E v1 v2 v3 w = SUCCESS /\
  undos (run_trace m E v1 v2 v3 w) =
    match m with Factory => [] | Scoped => [D; C; B; A] end /\
  (forall s, live (run_trace m E v1 v2 v3 w) s =
             match m with Factory => true | Scoped => false end).
Proof.
  intros V S K.
  pose proof (run_path m E v1 v2 v3 w) as P.
  pose proof (S A) as SA. pose proof (S B) as SB.
  pose proof (S C) as SC. pose proof (S D) as SD. clear S.
  destruct P; try (nonzero_hyps; eval_readers; discriminate).
  destruct m; nonzero_hyps; eval_readers;
    (split; [reflexivity | split; [reflexivity | intros []; reflexivity]]).
Qed.

Lemma mode_divergence_on_success_witness :
  (run_outcome Factory Script.all_ok 7 8 9 0%nat = SUCCESS /\
   undos (run_trace Factory Script.all_ok 7 8 9 0%nat) = []) /\
  (run_outcome Scoped Script.all_ok 7 8 9 0%nat = SUCCESS /\
   undos (run_trace Scoped Script.all_ok 7 8 9 0%nat) = [D; C; B; A]).
Proof.
  split.
  - destruct (mode_divergence_on_success Factory Script.all_ok 7 8 9 0%nat)
      as (O & U & _);
      [reflexivity | intros []; reflexivity | reflexivity | exact (conj O U)].
  - destruct (mode_divergence_on_success Scoped Script.all_ok 7 8 9 0%nat)
      as (O & U & _);
      [reflexivity | intros []; reflexivity | reflexivity | exact (conj O U)].
Defined.

(** ** Validation *)

(** C4. On an input for which one of [var_1_is_valid], [var_2_is_valid],
    [var_3_is_valid] answers 0, either function returns [FAILURE] and calls
    no forward action and no compensation. *)
Theorem validation_short_circuit {W} (m : mode) (E : Ext.t W)
    (v1 v2 v3 : Z) (w : W) :
  any_invalid E v1 v2 v3 w = true ->
  run_outcome m E v1 v2 v3 w = FAILURE /\
  dos (run_trace m E v1 v2 v3 w) = [] /\
  undos (run_trace m E v1 v2 v3 w) = [].
Proof.
  rewrite (any_invalid_spec m). intros R.
  pose proof (run_path m E v1 v2 v3 w) as P.
  on_paths P; try discriminate; repeat split.
Qed.

Lemma validation_short_circuit_witness :
  any_invalid Script.var_2_invalid 7 8 9 0%nat = true /\
  run_outcome Scoped Script.var_2_invalid 7 8 9 0%nat = FAILURE /\
  dos (run_trace Scoped Script.var_2_invalid 7 8 9 0%nat) = [] /\
  undos (run_trace Scoped Script.var_2_invalid 7 8 9 0%nat) = [].
Proof.
  split; [reflexivity|].
  apply (validation_short_circuit Scoped Script.var_2_invalid 7 8 9 0%nat).
  reflexivity.
Defined.

(** ** Liveness *)

(** After any number of events of a path, the live steps are a prefix. *)
Lemma path_live_prefix m v1 v2 v3 r t (n : nat) :
  path m v1 v2 v3 r t -> exists k, is_prefix_of_steps (live (firstn n t)) k.
Proof.
  intros P. destruct P; destruct m; nonzero_hyps;
    unfold validations, after_core; cbn [app];
    do 13 (try destruct n as [|n]); eval_readers; prefix_size.
Qed.

(** Each compensation of a path is called on the highest live step, and
    leaves the steps below it live. *)
Lemma path_undo_at_cursor m v1 v2 v3 r t (n : nat) (s : step) (u : Z) :
  path m v1 v2 v3 r t ->
  nth_error t n = Some (Called (Undo s) u) ->
  is_prefix_of_steps (live (firstn n t)) (S (idx s)) /\
  is_prefix_of_steps (live (firstn (S n) t)) (idx s).
Proof.
  intros P N. destruct P; destruct m; nonzero_hyps;
    unfold validations, after_core in *; cbn [app] in *;
    do 13 (try destruct n as [|n]); cbn [nth_error] in N; try discriminate N;
    injection N as <- _; unfold is_prefix_of_steps;
    split; intros []; eval_readers; reflexivity.
Qed.

(** The compensations of a path are those of a prefix, last step first. *)
Lemma path_undos_reversed_prefix m v1 v2 v3 r t :
  path m v1 v2 v3 r t -> exists k, undos t = rev (firstn k steps).
Proof.
  intros P. on_paths P;
    first [ exists 0%nat; reflexivity | exists 1%nat; reflexivity
          | exists 2%nat; reflexivity | exists 3%nat; reflexivity
          | exists 4%nat; reflexivity ].
Qed.

Lemma NoDup_rev_prefix_of_steps (k : nat) : NoDup (rev (firstn k steps)).
Proof.
  do 5 (try destruct k as [|k]); cbn;
    repeat constructor; cbn; intuition discriminate.
Qed.

(** C5. After every prefix of a run of either function the steps whose
    effect is live are the first [k] steps for some [k]; every compensation
    is called when its step is the highest live one and leaves the steps
    below it live, so that the unwind goes down one index at a time to
    [undo_a]; no compensation is called twice. *)
Theorem contiguous_prefix_liveness {W} (m : mode) (E : Ext.t W)
    (v1 v2 v3 : Z) (w : W) :
  (forall n, exists k,
      is_prefix_of_steps (live (firstn n (run_trace m E v1 v2 v3 w))) k) /\
  (forall n s u,
      nth_error (run_trace m E v1 v2 v3 w) n = Some (Called (Undo s) u) ->
      is_prefix_of_steps (live (firstn n (run_trace m E v1 v2 v3 w)))
                         (S (idx s)) /\
      is_prefix_of_steps (live (firstn (S n) (run_trace m E v1 v2 v3 w)))
                         (idx s)) /\
  (exists k, undos (run_trace m E v1 v2 v3 w) = rev (firstn k steps)) /\
  NoDup (undos (run_trace m E v1 v2 v3 w)).
Proof.
  pose proof (run_path m E v1 v2 v3 w) as P.
  split; [|split; [|split]].
  - intros n. exact (path_live_prefix _ _ _ _ _ _ n P).
  - intros n s u. exact (path_undo_at_cursor _ _ _ _ _ _ n s u P).
  - exact (path_undos_reversed_prefix _ _ _ _ _ _ P).
  - destruct (path_undos_reversed_prefix _ _ _ _ _ _ P) as [k ->].
    apply NoDup_rev_prefix_of_steps.
Qed.

(** ** Forward attempts *)

(** On a path, [do_a] is called only after the three validations passed. *)
Lemma path_first_attempt m v1 v2 v3 r t :
  path m v1 v2 v3 r t -> attempted A t = true -> validation_passed t = true.
Proof. intros P H. on_paths P; try discriminate; reflexivity. Qed.

(** On a path, a later step is called exactly when the steps before it
    succeeded. *)
Lemma path_later_attempt m v1 v2 v3 r t (s : step) :
  path m v1 v2 v3 r t -> s <> A ->
  attempted s t = true <->
  (forall j, (idx j < idx s)%nat -> succeeded j t = true).
Proof.
  intros P NA. split.
  - intros H j L.
    destruct s, j; cbn [idx] in L; try lia; try congruence;
      on_paths P; try discriminate; reflexivity.
  - intros H.
    assert (HA : (idx A < idx s)%nat -> succeeded A t = true) by apply H.
    assert (HB : (idx B < idx s)%nat -> succeeded B t = true) by apply H.
    assert (HC : (idx C < idx s)%nat -> succeeded C t = true) by apply H.
    clear H.
    destruct s; try congruence; cbn [idx] in HA, HB, HC;
      try specialize (HA ltac:(lia)); try specialize (HB ltac:(lia));
      try specialize (HC ltac:(lia));
      on_paths P; try discriminate; reflexivity.
Qed.

(** The forward calls of a path are a prefix of [steps], in order. *)
Lemma path_dos_prefix m v1 v2 v3 r t :
  path m v1 v2 v3 r t -> exists k, dos t = firstn k steps.
Proof.
  intros P. on_paths P;
    first [ exists 0%nat; reflexivity | exists 1%nat; reflexivity
          | exists 2%nat; reflexivity | exists 3%nat; reflexivity
          | exists 4%nat; reflexivity ].
Qed.

Lemma NoDup_prefix_of_steps (k : nat) : NoDup (firstn k steps).
Proof.
  do 5 (try destruct k as [|k]); cbn;
    repeat constructor; cbn; intuition discriminate.
Qed.

(** On a path, nothing is attempted after a failed attempt. *)
Lemma path_no_attempt_after_failure m v1 v2 v3 r t (n : nat) (s : step) :
  path m v1 v2 v3 r t ->
  nth_error t n = Some (Called (Do s) 0) ->
  dos (skipn (S n) t) = [].
Proof.
  intros P N. destruct P; destruct m;
    unfold validations, after_core in *; cbn [app] in *;
    do 13 (try destruct n as [|n]); cbn [nth_error] in N; try discriminate N;
    try reflexivity;
    injection N as _ Z0; congruence.
Qed.

(** C10. In a run of either function [do_a] is called only if validation
    passed; each of [do_b], [do_c], [do_d] is called exactly when all the
    forward steps before it succeeded; the forward calls are a prefix of
    [do_a], [do_b], [do_c], [do_d] in that order, each at most once; after a
    forward call that failed no forward call follows. *)
Theorem forward_attempts_in_order {W} (m : mode) (E : Ext.t W)
    (v1 v2 v3 : Z) (w : W) :
  (attempted A (run_trace m E v1 v2 v3 w) = true ->
   validation_passed (run_trace m E v1 v2 v3 w) = true) /\
  (forall s, s <> A ->
     attempted s (run_trace m E v1 v2 v3 w) = true <->
     (forall j, (idx j < idx s)%nat ->
                succeeded j (run_trace m E v1 v2 v3 w) = true)) /\
  (exists k, dos (run_trace m E v1 v2 v3 w) = firstn k steps) /\
  NoDup (dos (run_trace m E v1 v2 v3 w)) /\
  (forall n s,
     nth_error (run_trace m E v1 v2 v3 w) n = Some (Called (Do s) 0) ->
     dos (skipn (S n) (run_trace m E v1 v2 v3 w)) = []).
Proof.
  pose proof (run_path m E v1 v2 v3 w) as P.
  split; [|split; [|split; [|split]]].
  - exact (path_first_attempt _ _ _ _ _ _ P).
  - intros s. exact (path_later_attempt _ _ _ _ _ _ s P).
  - exact (path_dos_prefix _ _ _ _ _ _ P).
  - destruct (path_dos_prefix _ _ _ _ _ _ P) as [k ->].
    apply NoDup_prefix_of_steps.
  - intros n s. exact (path_no_attempt_after_failure _ _ _ _ _ _ n s P).
Qed.

(** ** The two functions side by side *)

(** C8. On every failing path, validation failure or failure of one of
    [do_a] .. [do_d], the two functions make the same calls in the same
    order, leave the same world and return the same [FAILURE]; they differ
    only when the run is complete, where the second function adds the four
    compensations. *)
Theorem modes_agree_on_failing_paths {W} (m : mode) (E : Ext.t W)
    (v1 v2 v3 : Z) (w : W) :
  if failing (run_trace m E v1 v2 v3 w)
  then robust_function Factory E v1 v2 v3 w =
       robust_function Scoped E v1 v2 v3 w /\
       run_outcome Factory E v1 v2 v3 w = FAILURE
  else completed (run_trace Factory E v1 v2 v3 w) = true /\
       completed (run_trace Scoped E v1 v2 v3 w) = true /\
       run_outcome Factory E v1 v2 v3 w = SUCCESS /\
       run_outcome Scoped E v1 v2 v3 w = SUCCESS /\
       exists ud uc ub ua,
         run_trace Scoped E v1 v2 v3 w =
         run_trace Factory E v1 v2 v3 w ++
         [Called (Undo D) ud; Called (Undo C) uc;
          Called (Undo B) ub; Called (Undo A) ua].
Proof.
  unfold run_outcome, run_trace; destruct m; unfold_run;
    repeat next_call E; unfold outcome, trace; cbn [fst snd app];
    nonzero_hyps; eval_readers;
    repeat (split; try reflexivity); repeat eexists.
Qed.

(** ** Results of the compensations *)

(** With the same validators and forward steps, either function returns
    the same value whatever the compensations are. *)
Lemma outcome_same_forward {W} (m : mode) (E1 E2 : Ext.t W)
    (v1 v2 v3 : Z) (w : W) :
  same_forward E1 E2 ->
  run_outcome m E1 v1 v2 v3 w = run_outcome m E2 v1 v2 v3 w.
Proof.
  intros SF. unfold run_outcome; destruct m; unfold_run;
    repeat first
      [ match goal with
        | |- context [Ext.dispatch E1 ?c ?w0] => rewrite (SF c w0 eq_refl)
        end
      | next_call E2
      | next_call E1 ];
    reflexivity.
Qed.

(** No unwinding statement changes [result]. *)
Lemma unwinding_keeps_result {W} (m : mode) (E : Ext.t W) (v1 v2 v3 : Z)
    (s : step) (result : Z) (w : W) :
  outcome (statement m E v1 v2 v3 (Unwinding s) result w) = NoStatement \/
  exists p, outcome (statement m E v1 v2 v3 (Unwinding s) result w) =
            Goto p result.
Proof.
  destruct s, m; cbn [statement]; unfold_run; try (left; reflexivity);
    next_call E; right; eexists; reflexivity.
Qed.

(** C9. What either function returns does not depend on the compensations:
    two sets of external functions with the same validators and forward
    steps give the same outcome; no unwinding statement changes [result];
    and when the run of the second function is complete, the function
    returns [SUCCESS] whatever its four compensations return. *)
Theorem outcome_ignores_compensation_results {W} (m : mode)
    (E1 E2 : Ext.t W) (v1 v2 v3 : Z) (w : W) :
  same_forward E1 E2 ->
  run_outcome m E1 v1 v2 v3 w = run_outcome m E2 v1 v2 v3 w /\
  (forall s result w',
      outcome (statement m E1 v1 v2 v3 (Unwinding s) result w') = NoStatement \/
      exists p, outcome (statement m E1 v1 v2 v3 (Unwinding s) result w') =
                Goto p result) /\
  (completed (run_trace Scoped E1 v1 v2 v3 w) = true ->
   run_outcome Scoped E2 v1 v2 v3 w = SUCCESS).
Proof.
  intros SF. split; [|split].
  - exact (outcome_same_forward m E1 E2 v1 v2 v3 w SF).
  - intros s result w'. apply unwinding_keeps_result.
  - intros K. rewrite <- (outcome_same_forward Scoped E1 E2 v1 v2 v3 w SF).
    pose proof (run_path Scoped E1 v1 v2 v3 w) as P.
    on_paths P; try discriminate; reflexivity.
Qed.

Lemma outcome_ignores_compensation_results_witness :
  same_forward Script.all_ok Script.undos_fail /\
  run_outcome Scoped Script.all_ok 7 8 9 0%nat =
  run_outcome Scoped Script.undos_fail 7 8 9 0%nat /\
  run_outcome Scoped Script.undos_fail 7 8 9 0%nat = SUCCESS.
Proof.
  assert (SF : same_forward Script.all_ok Script.undos_fail).
  { intros [[] v|[]|s] w0 U; solve [reflexivity | discriminate U]. }
  split; [exact SF|].
  destruct (outcome_ignores_compensation_results Scoped Script.all_ok
              Script.undos_fail 7 8 9 0%nat SF) as (O & _ & S).
  split; [exact O | apply S; reflexivity].
Defined.

(** After a compensation that returned 0 the unwind of a path goes on
    through the steps below it, and the path ends with the outcome of its
    forward part. *)
Lemma path_undo_failure_ignored m v1 v2 v3 r t (n : nat) (s : step) :
  path m v1 v2 v3 r t ->
  nth_error t n = Some (Called (Undo s) 0) ->
  undos (skipn (S n) t) = rev (firstn (idx s) steps) /\
  r = (if completed t then SUCCESS else FAILURE).
Proof.
  intros P N. destruct P; destruct m; nonzero_hyps;
    unfold validations, after_core in *; cbn [app] in *;
    do 13 (try destruct n as [|n]); cbn [nth_error] in N; try discriminate N;
    injection N as <- _; eval_readers; split; reflexivity.
Qed.

(** C6, as the code has it.  A compensation that returns 0 during the
    unwind is not reported: the compensations of the steps below it are
    still called, down to [undo_a], and the function returns the ordinary
    outcome, [SUCCESS] on the complete path and [FAILURE] on the others. *)
Theorem compensation_failure_ignored {W} (m : mode) (E : Ext.t W)
    (v1 v2 v3 : Z) (w : W) (n : nat) (s : step) :
  nth_error (run_trace m E v1 v2 v3 w) n = Some (Called (Undo s) 0) ->
  undos (skipn (S n) (run_trace m E v1 v2 v3 w)) = rev (firstn (idx s) steps) /\
  run_outcome m E v1 v2 v3 w =
    (if completed (run_trace m E v1 v2 v3 w) then SUCCESS else FAILURE).
Proof.
  intros N.
  exact (path_undo_failure_ignored _ _ _ _ _ _ n s (run_path m E v1 v2 v3 w) N).
Qed.

Lemma compensation_failure_ignored_witness :
  nth_error (run_trace Factory Script.c_fails_undo_b_fails 7 8 9 0%nat) 6 =
    Some (Called (Undo B) 0) /\
  undos (skipn 7 (run_trace Factory Script.c_fails_undo_b_fails 7 8 9 0%nat)) =
    [A] /\
  run_outcome Factory Script.c_fails_undo_b_fails 7 8 9 0%nat = FAILURE.
Proof.
  split; [reflexivity|].
  apply (compensation_failure_ignored Factory Script.c_fails_undo_b_fails
           7 8 9 0%nat 6 B).
  reflexivity.
Defined.

(** C6, as the specification has it, fails: with [do_c] failing and
    [undo_b] returning 0, the first function returns the plain [FAILURE]. *)
Lemma compensation_failure_not_propagated :
  undo_failed (run_trace Factory Script.c_fails_undo_b_fails 7 8 9 0%nat) = true /\
  run_outcome Factory Script.c_fails_undo_b_fails 7 8 9 0%nat = FAILURE /\
  ~ compensation_failure_propagates Factory Script.c_fails_undo_b_fails
      7 8 9 0%nat.
Proof.
  split; [reflexivity|]. split; [reflexivity|].
  intros H. destruct H as [H _]; [reflexivity|]. apply H. reflexivity.
Qed.

(** ** Termination *)

(** A statement that has a successor leads to a later place of the text. *)
Lemma statement_advances {W} (m : mode) (E : Ext.t W) (v1 v2 v3 : Z)
    (p p' : pc) (result result' : Z) (w : W) :
  outcome (statement m E v1 v2 v3 p result w) = Goto p' result' ->
  (rank p < rank p')%nat.
Proof.
  destruct p as [|[]| |[]|], m; cbn [statement]; unfold_run;
    repeat next_call E; unfold outcome; cbn [fst];
    intros G; try discriminate G; injection G as <- _; cbn [rank]; lia.
Qed.

(** The control states entered from any state, with any fuel, come in the
    order of the text and not before the starting one. *)
Lemma exec_visits_increasing {W} (m : mode) (E : Ext.t W) (v1 v2 v3 : Z)
    (fuel : nat) :
  forall (p : pc) (result : Z) (w : W),
    StronglySorted (fun a b => (rank a < rank b)%nat)
                   (snd (outcome (exec m E v1 v2 v3 fuel p result w))) /\
    Forall (fun q => (rank p <= rank q)%nat)
           (snd (outcome (exec m E v1 v2 v3 fuel p result w))).
Proof.
  induction fuel as [|fuel IH]; intros p result w.
  - split; constructor.
  - cbn [exec]. unfold bind, ret. cbv beta.
    destruct (statement m E v1 v2 v3 p result w) as [[n w1] t1] eqn:S.
    destruct n as [p' result'| |].
    + assert (L : (rank p < rank p')%nat).
      { apply (statement_advances m E v1 v2 v3 p p' result result' w).
        rewrite S. reflexivity. }
      specialize (IH p' result' w1).
      destruct (exec m E v1 v2 v3 fuel p' result' w1) as [[rest w2] t2].
      unfold outcome in *. cbn [fst snd] in *. destruct IH as [Sorted Above].
      split.
      * constructor; [exact Sorted|].
        eapply Forall_impl; [|exact Above]. cbn. intros; lia.
      * constructor; [lia|].
        eapply Forall_impl; [|exact Above]. cbn. intros; lia.
    + unfold outcome. cbn [fst snd]. split; repeat constructor.
    + unfold outcome. cbn [fst snd]. split; repeat constructor.
Qed.

Lemma increasing_rank_NoDup (l : list pc) :
  StronglySorted (fun a b => (rank a < rank b)%nat) l -> NoDup l.
Proof.
  induction 1 as [|a l _ IH F]; constructor; [|exact IH].
  intros I. rewrite Forall_forall in F. specialize (F a I). lia.
Qed.

(** With eleven statements or more the machine returns, and it returns
    what the function returns, in the same world, with the same trace. *)
Lemma machine_returns {W} (m : mode) (E : Ext.t W) (v1 v2 v3 : Z) (w : W)
    (k : nat) :
  exec m E v1 v2 v3 (11 + k) Validating FAILURE w =
  (Some (run_outcome m E v1 v2 v3 w), visited m E v1 v2 v3 w,
   final (robust_function m E v1 v2 v3 w), run_trace m E v1 v2 v3 w).
Proof.
  unfold visited, machine_run, run_outcome, run_trace.
  destruct m; repeat machine_step E; machine_unfold;
    unfold outcome, final, trace; cbn [fst snd app]; reflexivity.
Qed.

(** No call site occurs twice on a path. *)
Lemma path_calls_NoDup m v1 v2 v3 r t :
  path m v1 v2 v3 r t -> NoDup (calls t).
Proof.
  intros P. on_paths P; repeat constructor; cbn [In];
    intuition discriminate.
Qed.

(** C7. Every call of either function returns: eleven statements, or any
    larger number, bring the machine to [return result], with the value,
    world and trace of the function; the value is [SUCCESS] or [FAILURE];
    the control states entered come in the order of the text, so none is
    entered twice, and no external call site is reached twice. *)
Theorem every_run_terminates {W} (m : mode) (E : Ext.t W)
    (v1 v2 v3 : Z) (w : W) :
  (forall k,
     exec m E v1 v2 v3 (11 + k) Validating FAILURE w =
     (Some (run_outcome m E v1 v2 v3 w), visited m E v1 v2 v3 w,
      final (robust_function m E v1 v2 v3 w), run_trace m E v1 v2 v3 w)) /\
  (run_outcome m E v1 v2 v3 w = SUCCESS \/
   run_outcome m E v1 v2 v3 w = FAILURE) /\
  StronglySorted (fun a b => (rank a < rank b)%nat) (visited m E v1 v2 v3 w) /\
  NoDup (visited m E v1 v2 v3 w) /\
  NoDup (calls (run_trace m E v1 v2 v3 w)).
Proof.
  pose proof (run_path m E v1 v2 v3 w) as P.
  pose proof (exec_visits_increasing m E v1 v2 v3 11 Validating FAILURE w)
    as [Sorted _].
  fold (machine_run m E v1 v2 v3 w) in Sorted.
  fold (visited m E v1 v2 v3 w) in Sorted.
  split; [|split; [|split; [|split]]].
  - intros k. apply machine_returns.
  - exact (path_outcome _ _ _ _ _ _ P).
  - exact Sorted.
  - exact (increasing_rank_NoDup _ Sorted).
  - exact (path_calls_NoDup _ _ _ _ _ _ P).
Qed.

(** ** Further properties of the two functions *)

(** *** Order of the calls *)

(** X1. Validation is the short-circuit [||] of the source: every run
    starts with [var_1_is_valid (var_1)]; [var_2_is_valid] is called
    exactly when the first validator accepted, [var_3_is_valid] exactly
    when the first two accepted; each validator is called at most once and
    with its own argument. *)
Theorem validation_in_order {W} (m : mode) (E : Ext.t W)
    (v1 v2 v3 : Z) (w : W) :
  (exists r, hd_error (run_trace m E v1 v2 v3 w) =
             Some (Called (Validate Var1 v1) r)) /\
  (checked Var2 (run_trace m E v1 v2 v3 w) = true <->
   accepted Var1 (run_trace m E v1 v2 v3 w) = true) /\
  (checked Var3 (run_trace m E v1 v2 v3 w) = true <->
   accepted Var1 (run_trace m E v1 v2 v3 w) = true /\
   accepted Var2 (run_trace m E v1 v2 v3 w) = true) /\
  (exists k, (1 <= k)%nat /\
     validation_calls (run_trace m E v1 v2 v3 w) =
     firstn k [Validate Var1 v1; Validate Var2 v2; Validate Var3 v3]).
Proof.
  pose proof (run_path m E v1 v2 v3 w) as P.
  unfold checked, validation_calls.
  split; [|split; [|split]].
  - on_paths P; eexists; reflexivity.
  - on_paths P; split; intros Q; try discriminate Q; reflexivity.
  - on_paths P; (split; [intros Q | intros [Q Q']]);
      try discriminate; try split; reflexivity.
  - on_paths P;
      first [ exists 1%nat; split; [lia | reflexivity]
            | exists 2%nat; split; [lia | reflexivity]
            | exists 3%nat; split; [lia | reflexivity] ].
Qed.

Lemma path_phases m v1 v2 v3 r t :
  path m v1 v2 v3 r t ->
  StronglySorted (fun a b => (phase a <= phase b)%nat) t.
Proof.
  intros P. destruct P; destruct m; unfold validations, after_core;
    cbn [app]; repeat constructor.
Qed.

(** X2. The calls of a run come in the four parts of the text and are
    never interleaved: validator calls, then forward steps, then the core
    task, then compensations.  In particular no forward step is attempted
    once a compensation has been called. *)
Theorem calls_in_phases {W} (m : mode) (E : Ext.t W)
    (v1 v2 v3 : Z) (w : W) :
  StronglySorted (fun a b => (phase a <= phase b)%nat)
                 (run_trace m E v1 v2 v3 w) /\
  (forall n s u,
     nth_error (run_trace m E v1 v2 v3 w) n = Some (Called (Undo s) u) ->
     dos (skipn n (run_trace m E v1 v2 v3 w)) = []).
Proof.
  pose proof (run_path m E v1 v2 v3 w) as P. split.
  - exact (path_phases _ _ _ _ _ _ P).
  - intros n s u N.
    destruct P; destruct m; unfold validations, after_core in *;
      cbn [app] in *;
      do 13 (try destruct n as [|n]); cbn [nth_error] in N;
      try discriminate N; reflexivity.
Qed.

(** X3. A run makes at least one external call, the first function at most
    ten and the second at most eleven; a run that returns [SUCCESS] makes
    exactly seven calls in the first function and eleven in the second. *)
Theorem number_of_calls {W} (m : mode) (E : Ext.t W)
    (v1 v2 v3 : Z) (w : W) :
  (1 <= length (calls (run_trace m E v1 v2 v3 w)) <=
   match m with Factory => 10 | Scoped => 11 end)%nat /\
  (run_outcome m E v1 v2 v3 w = SUCCESS ->
   length (calls (run_trace m E v1 v2 v3 w)) =
   match m with Factory => 7 | Scoped => 11 end%nat).
Proof.
  pose proof (run_path m E v1 v2 v3 w) as P. split.
  - on_paths P; cbn [length]; lia.
  - intros S. rewrite S in P.
    remember (run_trace m E v1 v2 v3 w) as t eqn:Ht. clear Ht.
    remember SUCCESS as r eqn:Hr.
    destruct P; try discriminate Hr; destruct m; reflexivity.
Qed.

Lemma number_of_calls_witness :
  length (calls (run_trace Factory Script.all_ok 7 8 9 0%nat)) = 7%nat.
Proof.
  apply (number_of_calls Factory Script.all_ok 7 8 9 0%nat). reflexivity.
Defined.

(** *** What stays in place *)

(** X4. The first function has no [undo_d]: it never calls it.  The second
    calls [undo_d] exactly in the runs that return [SUCCESS]. *)
Theorem last_step_compensation {W} (E : Ext.t W) (v1 v2 v3 : Z) (w : W) :
  compensated D (run_trace Factory E v1 v2 v3 w) = false /\
  (compensated D (run_trace Scoped E v1 v2 v3 w) = true <->
   run_outcome Scoped E v1 v2 v3 w = SUCCESS).
Proof.
  split.
  - pose proof (run_path Factory E v1 v2 v3 w) as P.
    remember Factory as m eqn:Hm.
    destruct P; subst m; eval_readers; reflexivity.
  - pose proof (run_path Scoped E v1 v2 v3 w) as P.
    remember Scoped as m eqn:Hm.
    destruct P; subst m; eval_readers; split; intros Q;
      solve [reflexivity | discriminate Q].
Qed.

(** X5. All or nothing.  When the first function returns, the effects of
    the four steps are all live if it returns [SUCCESS] and none is live
    otherwise; when the second function returns, no effect is live,
    whatever it returns. *)
Theorem effects_after_return {W} (m : mode) (E : Ext.t W)
    (v1 v2 v3 : Z) (w : W) (s : step) :
  live (run_trace m E v1 v2 v3 w) s =
  match m with
  | Factory => run_outcome m E v1 v2 v3 w =? SUCCESS
  | Scoped => false
  end.
Proof.
  pose proof (run_path m E v1 v2 v3 w) as P.
  destruct s; on_paths P; reflexivity.
Qed.

(** X6. The core task is reached at most once, and when it is reached the
    effects of the four steps are all live and no compensation has been
    called; the run then returns [SUCCESS]. *)
Theorem core_task_is_protected {W} (m : mode) (E : Ext.t W)
    (v1 v2 v3 : Z) (w : W) (n : nat) :
  nth_error (run_trace m E v1 v2 v3 w) n = Some CoreTask ->
  (forall s, live (firstn n (run_trace m E v1 v2 v3 w)) s = true) /\
  undos (firstn n (run_trace m E v1 v2 v3 w)) = [] /\
  core_ran (skipn (S n) (run_trace m E v1 v2 v3 w)) = false /\
  run_outcome m E v1 v2 v3 w = SUCCESS.
Proof.
  intros N. pose proof (run_path m E v1 v2 v3 w) as P.
  destruct P; destruct m; nonzero_hyps;
    unfold validations, after_core in *; cbn [app] in *;
    do 13 (try destruct n as [|n]); cbn [nth_error] in N;
    try discriminate N;
    (split; [intros []; eval_readers; reflexivity | repeat split]).
Qed.

Lemma core_task_is_protected_witness :
  nth_error (run_trace Scoped Script.all_ok 7 8 9 0%nat) 7 = Some CoreTask /\
  undos (firstn 7 (run_trace Scoped Script.all_ok 7 8 9 0%nat)) = [] /\
  run_outcome Scoped Script.all_ok 7 8 9 0%nat = SUCCESS.
Proof.
  split; [reflexivity|].
  destruct (core_task_is_protected Scoped Script.all_ok 7 8 9 0%nat 7)
    as (_ & U & _ & S); [reflexivity | exact (conj U S)].
Defined.

(** *** The world after a run *)

(** Under the three assumptions, a failing run of either function and any
    run of the second end in the world they started from. *)
Lemma final_after_rollback {W} (m : mode) (E : Ext.t W)
    (v1 v2 v3 : Z) (w : W) :
  validators_pure E -> failure_has_no_effect E -> undo_reverses_do E ->
  m = Scoped \/ run_outcome m E v1 v2 v3 w = FAILURE ->
  final (robust_function m E v1 v2 v3 w) = w.
Proof.
  intros VP FN UR. unfold run_outcome.
  destruct m; unfold_run; repeat next_call E;
    unfold outcome, final; cbn [fst snd]; intros Q;
    try (destruct Q as [Q|Q]; discriminate Q);
    settle_worlds E VP FN UR; reflexivity.
Qed.

Lemma stack_validators_pure (E : Ext.t (list step)) :
  E = Stack.env_ok \/ E = Stack.env_d_fails -> validators_pure E.
Proof. intros [->| ->] [] v w; reflexivity. Qed.

Lemma stack_failure_has_no_effect (E : Ext.t (list step)) :
  E = Stack.env_ok \/ E = Stack.env_d_fails -> failure_has_no_effect E.
Proof. intros [->| ->] [] w Z0; solve [reflexivity | discriminate Z0]. Qed.

Lemma stack_undo_reverses_do (E : Ext.t (list step)) :
  E = Stack.env_ok \/ E = Stack.env_d_fails -> undo_reverses_do E.
Proof.
  intros [->| ->] [] w N; solve [reflexivity | exfalso; apply N; reflexivity].
Qed.

(** X7. No side effect is left behind.  If the validators only inspect
    their arguments, a failed step has changed nothing and each [undo_s]
    takes back what its [do_s] did, then every run of the first function
    that returns [FAILURE], and every run of the second function, ends in
    the world it started from. *)
Theorem rollback_restores_the_world {W} (m : mode) (E : Ext.t W)
    (v1 v2 v3 : Z) (w : W) :
  validators_pure E -> failure_has_no_effect E -> undo_reverses_do E ->
  m = Scoped \/ run_outcome m E v1 v2 v3 w = FAILURE ->
  final (robust_function m E v1 v2 v3 w) = w.
Proof. apply final_after_rollback. Qed.

Lemma rollback_restores_the_world_witness :
  run_outcome Factory Stack.env_d_fails 7 8 9 [D] = FAILURE /\
  final (robust_function Factory Stack.env_d_fails 7 8 9 [D]) = [D] /\
  final (robust_function Scoped Stack.env_ok 7 8 9 [D]) = [D].
Proof.
  split; [reflexivity|]. split.
  - apply (rollback_restores_the_world Factory Stack.env_d_fails 7 8 9 [D]).
    + apply stack_validators_pure; right; reflexivity.
    + apply stack_failure_has_no_effect; right; reflexivity.
    + apply stack_undo_reverses_do; right; reflexivity.
    + right; reflexivity.
  - apply (rollback_restores_the_world Scoped Stack.env_ok 7 8 9 [D]).
    + apply stack_validators_pure; left; reflexivity.
    + apply stack_failure_has_no_effect; left; reflexivity.
    + apply stack_undo_reverses_do; left; reflexivity.
    + left; reflexivity.
Defined.

(** X8. The effects are kept.  If the validators only inspect their
    arguments, a run of the first function that returns [SUCCESS] ends in
    the world that [do_a], [do_b], [do_c], [do_d], applied in this order to
    the starting world, produce. *)
Theorem success_keeps_the_effects {W} (E : Ext.t W)
    (v1 v2 v3 : Z) (w : W) :
  validators_pure E ->
  run_outcome Factory E v1 v2 v3 w = SUCCESS ->
  final (robust_function Factory E v1 v2 v3 w) =
  snd (Ext.do_d E (snd (Ext.do_c E (snd (Ext.do_b E (snd (Ext.do_a E w))))))).
Proof.
  intros VP.
  unfold run_outcome. unfold_run; repeat next_call E;
    unfold outcome, final; cbn [fst snd]; intros Q; try discriminate Q;
    repeat match goal with
           | H : Ext.dispatch E (Validate ?p ?v) ?w0 = (_, ?w1) |- _ =>
               let X := fresh in
               pose proof (VP p v w0) as X; rewrite H in X;
               cbn [fst snd] in X; clear H; try subst w1
           end;
    change (Ext.do_a E) with (Ext.dispatch E (Do A));
    change (Ext.do_b E) with (Ext.dispatch E (Do B));
    change (Ext.do_c E) with (Ext.dispatch E (Do C));
    change (Ext.do_d E) with (Ext.dispatch E (Do D));
    repeat match goal with
           | H : Ext.dispatch E ?c ?w0 = _
             |- context [Ext.dispatch E ?c ?w0] => rewrite H; cbn [snd]
           end;
    reflexivity.
Qed.

Lemma success_keeps_the_effects_witness :
  final (robust_function Factory Stack.env_ok 7 8 9 []) = [D; C; B; A].
Proof.
  apply (success_keeps_the_effects Stack.env_ok 7 8 9 []).
  - apply stack_validators_pure; left; reflexivity.
  - reflexivity.
Defined.

(** X9. A call after a rolled-back one is not disturbed.  Under the
    assumptions of X7, running either function after a failed run of the
    first function, or after any run of the second, gives what it gives on
    the starting world, and the trace of the two calls is the first trace
    followed by the second. *)
Theorem call_after_rollback {W} (m m' : mode) (E : Ext.t W)
    (v1 v2 v3 u1 u2 u3 : Z) (w : W) :
  validators_pure E -> failure_has_no_effect E -> undo_reverses_do E ->
  m = Scoped \/ run_outcome m E v1 v2 v3 w = FAILURE ->
  (robust_function m E v1 v2 v3 ;; robust_function m' E u1 u2 u3) w =
  (run_outcome m' E u1 u2 u3 w,
   final (robust_function m' E u1 u2 u3 w),
   run_trace m E v1 v2 v3 w ++ run_trace m' E u1 u2 u3 w).
Proof.
  intros VP FN UR Q.
  pose proof (final_after_rollback m E v1 v2 v3 w VP FN UR Q) as F.
  unfold bind, run_outcome, run_trace, outcome, final, trace in *.
  destruct (robust_function m E v1 v2 v3 w) as [[r w'] t].
  cbn [fst snd] in F. subst w'.
  destruct (robust_function m' E u1 u2 u3 w) as [[r' w''] t'].
  reflexivity.
Qed.

Lemma call_after_rollback_witness :
  outcome ((robust_function Factory Stack.env_d_fails 7 8 9 ;;
            robust_function Scoped Stack.env_d_fails 1 2 3) []) = FAILURE.
Proof.
  rewrite (call_after_rollback Factory Scoped Stack.env_d_fails
             7 8 9 1 2 3 []).
  - reflexivity.
  - apply stack_validators_pure; right; reflexivity.
  - apply stack_failure_has_no_effect; right; reflexivity.
  - apply stack_undo_reverses_do; right; reflexivity.
  - right; reflexivity.
Defined.

(** *** Entry and exit *)

(** X10. Either function has one way in and one way out: every run starts
    at the validation [if] and its last statement is [return result] at the
    label [out]; it executes at least two and at most eleven statements,
    and the first function never reaches an [undo_d] statement. *)
Theorem single_entry_single_exit {W} (m : mode) (E : Ext.t W)
    (v1 v2 v3 : Z) (w : W) :
  hd_error (visited m E v1 v2 v3 w) = Some Validating /\
  last (visited m E v1 v2 v3 w) Validating = Out /\
  (2 <= length (visited m E v1 v2 v3 w) <= 11)%nat /\
  (m = Factory -> ~ In (Unwinding D) (visited m E v1 v2 v3 w)).
Proof.
  unfold visited, machine_run.
  destruct m; repeat machine_step E; machine_unfold;
    unfold outcome; cbn [fst snd hd_error last length In];
    (split; [reflexivity | split; [reflexivity | split; [lia|]]]);
    intros Q; try discriminate Q; intuition discriminate.
Qed.
